(** * socket.io-servicebus: the Service Bus store ([lib/sbstore.js])

    A shallow embedding of [ServiceBusStore] and of its prototype methods,
    together with the properties of the store that the specification states.

    Conventions of the embedding.
    - A method body is a computation in the monad [M]: it reads and writes
      [this] (the state), may [throw], and appends to a trace every call that
      leaves the file: a call on the batching transport [this.sb], an [emit]
      on the store's own event surface, the application of a subscriber, a
      listener hook.  The order of the trace is the order of the calls.
    - Subscribers and listeners are host callbacks.  Their bodies are not part
      of the library; a call is recorded and control comes back to the store.
      A callback is known by its identity only, as [===] knows a function.
    - [this.subscribers] is a plain JavaScript object used as a map from
      event name to array.  Its own keys are a [gmap string (list consumer)];
      reading a name that is not an own key goes on to [Object.prototype],
      whose members ([constructor], [toString], ...) are not arrays.
    - The transport classes ([BatchInterface], [ServiceBusInterface]), the
      base class [io.Store] and [azure] are other modules; their constructors
      and methods are calls of the trace, and they return. *)

From Stdlib Require Import ZArith.
From stdpp Require Import gmap strings list fin_maps.

Open Scope string_scope.
Open Scope list_scope.

(** ** JavaScript values and errors *)

Module JS.

(** The values that cross the store's interface: message arguments, event
    names, callbacks.  A function or an object is its identity; the numbers
    are the integers. *)
#[warnings="-register-all"] Inductive value : Type :=
| VUndefined
| VNull
| VBool (b : bool)
| VNum (z : Z)
| VStr (s : string)
| VFun (f : nat)
| VObj (id : nat)
| VArr (items : list value).

(** [ToBoolean]: what [if], [&&], [||], [!] and the callback of
    [Array.prototype.filter] see. *)
Definition to_boolean (v : value) : bool :=
  match v with
  | VUndefined | VNull => false
  | VBool b => b
  | VNum z => negb (z =? 0)%Z
  | VStr s => negb (String.eqb s "")
  | VFun _ | VObj _ | VArr _ => true
  end.

Inductive error : Type :=
| Error (message : string)
| TypeError (message : string)
| ReferenceError (identifier : string).

(** [Array.prototype.filter]: keeps the elements on which the callback's
    result is truthy, in order, in a new array. *)
Fixpoint Array_filter {A : Type} (callback : A → value) (arr : list A) : list A :=
  match arr with
  | [] => []
  | item :: rest =>
      if to_boolean (callback item)
      then item :: Array_filter callback rest
      else Array_filter callback rest
  end.

End JS.

Export JS.

(** ** The objects of the store *)

(** A function passed to [subscribe], and a listener object of the
    [listeners] option: identities. *)
Definition consumer := nat.
Definition listener := nat.

(** What [createServiceBusInterface] ends up with in [serviceBusService]:
    the object [azure.createServiceBusService] returned for a connection
    string, or the object the caller passed in the options. *)
Inductive service : Type :=
| ServiceFromConnectionString (cs : string)
| ServiceObject (id : nat).

(** The [listeners] option: absent, one listener object, or an array. *)
Inductive listeners_option : Type :=
| ListenersUndefined
| ListenerObject (l : listener)
| ListenerArray (ls : list listener).

(** The [options] argument of the constructor.  A field that is absent is
    [None]. *)
Record Options : Type := {
  connectionString : option string;
  serviceBusService : option nat;
  opt_nodeId : option string;
  topic : option string;
  subscription : option string;
  listeners : listeners_option
}.

(** [createOptions] of [createServiceBusInterface]. *)
Record CreateOptions : Type := {
  co_nodeId : string;
  co_topic : option string;
  co_subscription : option string;
  co_serviceBusService : option service
}.

(** [new ServiceBusInterface(createOptions)] and
    [new BatchInterface(createOptions, inner)]: the two transport objects,
    known here by what they were constructed with. *)
Record ServiceBusInterface : Type := {
  sbi_options : CreateOptions
}.

Record BatchInterface : Type := {
  bi_options : CreateOptions;
  bi_inner : ServiceBusInterface
}.

(** The fields the constructor sets on [this]. *)
Record ServiceBusStore : Type := {
  nodeId : string;
  sb : BatchInterface;
  subscribers : gmap string (list consumer)
}.

(** ** Effects *)

(** The calls a method makes outside the file, in the order it makes them. *)
Inductive event : Type :=
| StoreApply                                   (* io.Store.apply(this, arguments) *)
| Uuid                                         (* uuid() *)
| StoreDestroy                                 (* Store.prototype.destroy.call(this) *)
| CreateServiceBusService (cs : string)        (* azure.createServiceBusService(cs) *)
| NewServiceBusInterface (o : CreateOptions)
| NewBatchInterface (o : CreateOptions) (inner : ServiceBusInterface)
| ListenerStore (l : listener) (that : ServiceBusStore)        (* l.store(that) *)
| ListenerSb (l : listener) (transport : BatchInterface)       (* l.sb(that.sb) *)
| SbOn (ev : string)                           (* this.sb.on(ev, this.receiveMessage.bind(this)) *)
| SbStart                                      (* this.sb.start() *)
| SbStop                                       (* this.sb.stop() *)
| SbSend (name : value) (args : list value)    (* this.sb.send(name, args) *)
| Emit (ev : string) (args : list value)       (* this.emit(ev, ...args) *)
| Apply (sub : consumer) (args : list value).  (* sub.apply(null, args) *)

Inductive completion (A : Type) : Type :=
| Normal (a : A)
| Throw (e : error).
Arguments Normal {A} a.
Arguments Throw {A} e.

(** The result of running a method: the calls made, [this] afterwards, and
    how the body completed. *)
Record result (S A : Type) : Type := Result {
  trace : list event;
  final : S;
  outcome : completion A
}.
Arguments Result {S A} _ _ _.
Arguments trace {S A} _.
Arguments final {S A} _.
Arguments outcome {S A} _.

Definition M (S A : Type) : Type := S → result S A.

Section Monad.
Context {S : Type}.

Definition ret {A} (a : A) : M S A := λ s, Result [] s (Normal a).

Definition bind {A B} (m : M S A) (k : A → M S B) : M S B := λ s,
  let r := m s in
  match outcome r with
  | Normal a =>
      let r' := k a (final r) in
      Result (trace r ++ trace r') (final r') (outcome r')
  | Throw e => Result (trace r) (final r) (Throw e)
  end.

Definition throw {A} (e : error) : M S A := λ s, Result [] s (Throw e).
Definition call (ev : event) : M S unit := λ s, Result [ev] s (Normal ()).
Definition this : M S S := λ s, Result [] s (Normal s).
Definition assign (f : S → S) : M S unit := λ s, Result [] (f s) (Normal ()).

(** [Array.prototype.forEach]. *)
Fixpoint forEach {A} (arr : list A) (callback : A → M S unit) : M S unit :=
  match arr with
  | [] => ret ()
  | item :: rest => bind (callback item) (λ _, forEach rest callback)
  end.

(** A callback that only makes calls: it leaves [this] alone and returns. *)
Definition only_calls {A} (callback : A → M S unit) (calls : A → list event)
    : Prop :=
  ∀ item s, callback item s = Result (calls item) s (Normal ()).
End Monad.

Declare Scope js_scope.
Delimit Scope js_scope with js.
Notation "x <- m ;; k" := (bind m (λ x, k))
  (at level 100, m at next level, k at level 200, right associativity,
   only parsing) : js_scope.
Notation "m ;; k" := (bind m (λ _, k))
  (at level 100, k at level 200, right associativity, only parsing) : js_scope.
Open Scope js_scope.

(** ** Identifiers in scope in [sbstore.js] *)

(** The bindings of the module: its [var] declarations, the function
    declaration, and what the module wrapper of Node passes in. *)
Definition module_bindings : list string :=
  [ "io"; "util"; "uuid"; "azure"; "Client"; "logging"; "BatchInterface";
    "ServiceBusInterface"; "ServiceBusStore";
    "exports"; "module"; "require"; "__filename"; "__dirname" ].

(** The global object of Node and of the language. *)
Definition global_bindings : list string :=
  [ "global"; "process"; "console"; "Buffer";
    "setTimeout"; "clearTimeout"; "setInterval"; "clearInterval";
    "Object"; "Function"; "Array"; "String"; "Boolean"; "Number"; "Date";
    "RegExp"; "Math"; "JSON"; "Error"; "TypeError"; "ReferenceError";
    "RangeError"; "SyntaxError"; "EvalError"; "URIError";
    "undefined"; "NaN"; "Infinity"; "parseInt"; "parseFloat"; "isNaN";
    "isFinite"; "eval"; "escape"; "unescape";
    "encodeURI"; "decodeURI"; "encodeURIComponent"; "decodeURIComponent" ].

(** Reading an identifier that no scope binds throws a [ReferenceError]. *)
Definition resolve {S} (identifier : string) : M S unit :=
  if bool_decide (identifier ∈ module_bindings ++ global_bindings)
  then ret ()
  else throw (ReferenceError identifier).

(** ** The store: [lib/sbstore.js] *)

(** A field of [options] as the value the code tests: an absent field reads
    as [undefined]. *)
Definition string_field (f : option string) : value :=
  match f with Some s => VStr s | None => VUndefined end.

Definition object_field (f : option nat) : value :=
  match f with Some id => VObj id | None => VUndefined end.

(** [this.subscribers = m]. *)
Definition set_subscribers (m : gmap string (list consumer))
    (s : ServiceBusStore) : ServiceBusStore :=
  {| nodeId := nodeId s; sb := sb s; subscribers := m |}.

(** The names of the members of [Object.prototype], which every plain object
    inherits: the functions and, under [__proto__], the prototype itself. *)
Definition Object_prototype : list string :=
  [ "constructor"; "toString"; "toLocaleString"; "valueOf"; "hasOwnProperty";
    "isPrototypeOf"; "propertyIsEnumerable"; "__defineGetter__";
    "__defineSetter__"; "__lookupGetter__"; "__lookupSetter__"; "__proto__" ].

Definition inherited (name : string) : bool :=
  bool_decide (name ∈ Object_prototype).

(** What [var subscribers] holds after the lookup: an array, or a member of
    [Object.prototype], which is truthy and has no [push], [filter] or
    [forEach]. *)
Inductive property : Type :=
| AnArray (arr : list consumer)
| NotAnArray.

(** [this.subscribers[name] || []]: an own entry is an array and truthy, even
    when empty; without an own entry the prototype's member is found, and
    [[]] is taken only when there is none. *)
Definition subscribers_or_empty (s : ServiceBusStore) (name : string)
    : property :=
  match subscribers s !! name with
  | Some arr => AnArray arr
  | None => if inherited name then NotAnArray else AnArray []
  end.

(** [subscribers.push(...)], [subscribers.filter(...)],
    [subscribers.forEach(...)]: the method is read off the value and called;
    on a value that is not an array it is [undefined], and the call throws. *)
Definition array_method {S} (method : string) (subs : property)
    : M S (list consumer) :=
  match subs with
  | AnArray arr => ret arr
  | NotAnArray =>
      throw (TypeError ("subscribers." +:+ method +:+ " is not a function"))
  end.

(** [ServiceBusStore.prototype.publish]: [arguments] is the whole argument
    list of the call, the formal [name] its first element. *)
Definition publish (arguments : list value) : M ServiceBusStore unit :=
  let name := hd VUndefined arguments in
  let argsArray := arguments in
  let args := (name, drop 1 argsArray) in
  call (SbSend (fst args) (snd args)) ;;
  call (Emit "publish" argsArray).

(** [ServiceBusStore.prototype.subscribe].  The local [var subscribers] is
    [subs] here, the field keeps its name. *)
Definition subscribe (name : string) (consumer : consumer)
    : M ServiceBusStore unit :=
  s <- this ;;
  let subs := subscribers_or_empty s name in
  arr <- array_method "push" subs ;;
  let subs := arr ++ [consumer] in
  assign (λ s, set_subscribers (<[name := subs]> (subscribers s)) s) ;;
  call (Emit "subscribe" [VStr name; VFun consumer]).

(** The callback that [unsubscribe] passes to [filter]:
    [function (item) { item !== consumer; }].  The body is one expression
    statement; its value is dropped and the function returns [undefined]. *)
Definition unsubscribe_callback (consumer item : consumer) : value :=
  let _ := VBool (negb (Nat.eqb item consumer)) in
  VUndefined.

(** [ServiceBusStore.prototype.unsubscribe]. *)
Definition unsubscribe (name : string) (consumer : consumer)
    : M ServiceBusStore unit :=
  s <- this ;;
  let subs := subscribers_or_empty s name in
  arr <- array_method "filter" subs ;;
  let subs := Array_filter (unsubscribe_callback consumer) arr in
  assign (λ s, set_subscribers (<[name := subs]> (subscribers s)) s) ;;
  call (Emit "unsubscribe" [VStr name; VFun consumer]).

(** [ServiceBusStore.prototype.destroy].  Its first statement reads the
    identifier [Store]. *)
Definition destroy : M ServiceBusStore unit :=
  resolve "Store" ;;
  call StoreDestroy ;;
  call SbStop ;;
  assign (set_subscribers ∅).

(** [ServiceBusStore.prototype.receiveMessage]. *)
Definition receiveMessage (sourceNodeId name : string) (args : list value)
    : M ServiceBusStore unit :=
  call (Emit "received" [VStr sourceNodeId; VStr name; VArr args]) ;;
  s <- this ;;
  if bool_decide (sourceNodeId ≠ nodeId s) then
    let subs := subscribers_or_empty s name in
    arr <- array_method "forEach" subs ;;
    forEach arr (λ sub, call (Apply sub args))
  else ret ().

(** [ServiceBusStore.prototype.createServiceBusInterface].  It reads
    [this.nodeId] and nothing else of [this]; it runs while the store is
    being constructed.  With no [options] at all, the first test reads a
    property of [undefined]. *)
Definition createServiceBusInterface (this_nodeId : string)
    (options : option Options) : M unit BatchInterface :=
  match options with
  | None => throw (TypeError "Cannot read property 'connectionString' of undefined")
  | Some options =>
      let cs := string_field (connectionString options) in
      let sbs := object_field (serviceBusService options) in
      if to_boolean cs && to_boolean sbs then
        throw (Error "Should specify connection string or serviceBusService object, not both")
      else if negb (to_boolean cs) && negb (to_boolean sbs) then
        throw (Error "Must specify one of connectionString or serviceBusService in options")
      else
        serviceBusService <-
          (match connectionString options with
           | Some c =>
               if to_boolean (VStr c)
               then call (CreateServiceBusService c) ;;
                    ret (Some (ServiceFromConnectionString c))
               else ret (ServiceObject <$> serviceBusService options)
           | None => ret (ServiceObject <$> serviceBusService options)
           end) ;;
        let createOptions :=
          {| co_nodeId := this_nodeId;
             co_topic := topic options;
             co_subscription := subscription options;
             co_serviceBusService := serviceBusService |} in
        let inner := {| sbi_options := createOptions |} in
        call (NewServiceBusInterface createOptions) ;;
        call (NewBatchInterface createOptions inner) ;;
        ret {| bi_options := createOptions; bi_inner := inner |}
  end.

(** [ServiceBusStore.prototype.hookupListeners]; [that] is [this]. *)
Definition hookupListeners (that : ServiceBusStore)
    (listeners : listeners_option) : M unit unit :=
  let listeners :=
    match listeners with
    | ListenersUndefined => ListenerArray []
    | _ => listeners
    end in
  let listeners :=
    match listeners with
    | ListenerArray ls => ls
    | ListenerObject l => [l]
    | ListenersUndefined => []
    end in
  forEach listeners (λ l,
    call (ListenerStore l that) ;;
    call (ListenerSb l (sb that))).

(** [options && options.nodeId] and [options && options.listeners]. *)
Definition options_nodeId (options : option Options) : value :=
  match options with
  | Some o => string_field (opt_nodeId o)
  | None => VUndefined
  end.

Definition options_listeners (options : option Options) : listeners_option :=
  match options with
  | Some o => listeners o
  | None => ListenersUndefined
  end.

(** [(options && options.nodeId) || uuid()]: [uuid] is called only when the
    left operand is falsy. *)
Definition nodeId_or_uuid (options : option Options) (uuid : string)
    : M unit string :=
  match options_nodeId options with
  | VStr s => if to_boolean (VStr s) then ret s else call Uuid ;; ret uuid
  | _ => call Uuid ;; ret uuid
  end.

(** [new ServiceBusStore(options)].  [uuid] is what [uuid()] returns if it
    is called.  A constructor that throws gives no object to its caller: the
    store is the result of a normal completion only. *)
Definition new_ServiceBusStore (options : option Options) (uuid : string)
    : M unit ServiceBusStore :=
  call StoreApply ;;
  nodeId <- nodeId_or_uuid options uuid ;;
  sb <- createServiceBusInterface nodeId options ;;
  let that := {| nodeId := nodeId; sb := sb; subscribers := ∅ |} in
  hookupListeners that (options_listeners options) ;;
  call (SbOn "message") ;;
  call SbStart ;;
  ret that.

(** Running a method on a store, and the constructor. *)
Definition run {S A} (m : M S A) (s : S) : result S A := m s.
Definition construct (options : option Options) (uuid : string)
    : result unit ServiceBusStore :=
  new_ServiceBusStore options uuid ().

(** ** Vocabulary of the statements *)

(** [this.subscribers[name] || []] is an array: the name has an own entry in
    the registry [m], or it is not the name of a member of
    [Object.prototype]. *)
Definition finds_array (m : gmap string (list consumer)) (name : string)
    : bool :=
  match m !! name with
  | Some _ => true
  | None => negb (inherited name)
  end.

(** No name of a sequence of subscriptions is the name of a member of
    [Object.prototype]. *)
Definition ordinary_names (regs : list (string * consumer)) : bool :=
  forallb (λ r, negb (inherited r.1)) regs.

(** The subscriptions made by a sequence of [subscribe] calls, as the test
    suite makes them one after the other. *)
Definition subscribe_all (regs : list (string * consumer))
    : M ServiceBusStore unit :=
  forEach regs (λ r, subscribe (fst r) (snd r)).

(** One more subscription in front of a sequence: the store it leaves is
    where the rest of the sequence starts. *)
Definition after_subscribe (r : string * consumer) (st : ServiceBusStore)
    : ServiceBusStore :=
  set_subscribers
    (<[r.1 := default [] (subscribers st !! r.1) ++ [r.2]]> (subscribers st)) st.

(** The consumers that a sequence of calls registered under [name], in the
    order of the calls, repetitions kept. *)
Fixpoint registered_for (name : string) (regs : list (string * consumer))
    : list consumer :=
  match regs with
  | [] => []
  | r :: rest =>
      if bool_decide (fst r = name)
      then snd r :: registered_for name rest
      else registered_for name rest
  end.

(** The listeners of the [listeners] option as a sequence: none, the one
    object, or the array in its order. *)
Definition listener_list (ls : listeners_option) : list listener :=
  match ls with
  | ListenersUndefined => []
  | ListenerObject l => [l]
  | ListenerArray ls => ls
  end.

(** The two hooks of every listener, listener after listener. *)
Definition hook_calls (that : ServiceBusStore) (ls : list listener)
    : list event :=
  flat_map (λ l, [ListenerStore l that; ListenerSb l (sb that)]) ls.

(** The calls of the constructor that come before the batching transport
    exists. *)
Definition before_transport (e : event) : bool :=
  match e with
  | StoreApply | Uuid | CreateServiceBusService _ | NewServiceBusInterface _ => true
  | _ => false
  end.

(** An option "supplies" a transport source when the code's test of the
    field succeeds, that is when the field is truthy: an absent field and an
    empty connection string both count as not supplied. *)
Definition supplies_connectionString (o : Options) : bool :=
  to_boolean (string_field (connectionString o)).

Definition supplies_serviceBusService (o : Options) : bool :=
  to_boolean (object_field (serviceBusService o)).

(** What the specification asks of [unsubscribe] for the entry of [name]:
    the consumer is removed by identity, the others stay in place. *)
Definition spec_unsubscribe_entry (c : consumer) (entry : list consumer)
    : list consumer :=
  List.filter (λ item, negb (Nat.eqb item c)) entry.

(** ** Histories: a host that calls the store's methods one after the other *)

(** One call on a constructed store. *)
Inductive operation : Type :=
| OpPublish (arguments : list value)
| OpSubscribe (name : string) (c : consumer)
| OpUnsubscribe (name : string) (c : consumer)
| OpReceive (sourceNodeId name : string) (args : list value)
| OpDestroy.

Definition perform (op : operation) : M ServiceBusStore unit :=
  match op with
  | OpPublish arguments => publish arguments
  | OpSubscribe name c => subscribe name c
  | OpUnsubscribe name c => unsubscribe name c
  | OpReceive sourceNodeId name args => receiveMessage sourceNodeId name args
  | OpDestroy => destroy
  end.

(** The calls of a whole sequence and the store it leaves.  Each call starts
    on the store as the call before left it, also when that call threw: the
    host is the most permissive one, which goes on after an exception. *)
Fixpoint history (ops : list operation) (st : ServiceBusStore)
    : list event * ServiceBusStore :=
  match ops with
  | [] => ([], st)
  | op :: rest =>
      let r := run (perform op) st in
      let h := history rest (final r) in
      (trace r ++ h.1, h.2)
  end.

(** What one call does to the registry, and the calls that can change it. *)
Definition registry_step (op : operation) (m : gmap string (list consumer))
    : gmap string (list consumer) :=
  match op with
  | OpSubscribe name c =>
      if finds_array m name
      then <[name := default [] (m !! name) ++ [c]]> m
      else m
  | OpUnsubscribe name _ =>
      if finds_array m name then <[name := []]> m else m
  | _ => m
  end.

Definition registry_operation (op : operation) : bool :=
  match op with
  | OpSubscribe _ _ | OpUnsubscribe _ _ => true
  | _ => false
  end.

(** The entry of [name] after a sequence of calls, read off the calls alone:
    a subscription under [name] adds its consumer at the end, an
    [unsubscribe] under [name] empties the entry, nothing else counts. *)
Fixpoint entry_after (name : string) (ops : list operation)
    (entry : list consumer) : list consumer :=
  match ops with
  | [] => entry
  | OpSubscribe n c :: rest =>
      entry_after name rest (if bool_decide (n = name) then entry ++ [c] else entry)
  | OpUnsubscribe n _ :: rest =>
      entry_after name rest (if bool_decide (n = name) then [] else entry)
  | _ :: rest => entry_after name rest entry
  end.

(** The calls of one operation on the store [st]. *)
Definition operation_calls (st : ServiceBusStore) (op : operation)
    : list event :=
  match op with
  | OpPublish arguments =>
      [SbSend (hd VUndefined arguments) (drop 1 arguments);
       Emit "publish" arguments]
  | OpSubscribe name c =>
      if finds_array (subscribers st) name
      then [Emit "subscribe" [VStr name; VFun c]]
      else []
  | OpUnsubscribe name c =>
      if finds_array (subscribers st) name
      then [Emit "unsubscribe" [VStr name; VFun c]]
      else []
  | OpReceive src name args =>
      Emit "received" [VStr src; VStr name; VArr args]
        :: (if bool_decide (src ≠ nodeId st)
            then map (λ sub, Apply sub args) (default [] (subscribers st !! name))
            else [])
  | OpDestroy => []
  end.

(** The transport sends and the local events that a sequence of calls asks
    for, read off the calls alone. *)
Definition operation_send (op : operation) : list event :=
  match op with
  | OpPublish arguments =>
      [SbSend (hd VUndefined arguments) (drop 1 arguments)]
  | _ => []
  end.

Definition operation_emit (op : operation) : list event :=
  match op with
  | OpPublish arguments => [Emit "publish" arguments]
  | OpSubscribe name c => [Emit "subscribe" [VStr name; VFun c]]
  | OpUnsubscribe name c => [Emit "unsubscribe" [VStr name; VFun c]]
  | OpReceive src name args => [Emit "received" [VStr src; VStr name; VArr args]]
  | OpDestroy => []
  end.

(** Kinds of calls in a trace. *)
Definition is_send (e : event) : bool :=
  match e with SbSend _ _ => true | _ => false end.

Definition is_emit (e : event) : bool :=
  match e with Emit _ _ => true | _ => false end.

Definition is_uuid_call (e : event) : bool :=
  match e with Uuid => true | _ => false end.

Definition is_azure_call (e : event) : bool :=
  match e with CreateServiceBusService _ => true | _ => false end.

(** The calls that belong to construction: the base constructor, [uuid()],
    the creation of a service or of a transport, a listener hook, the
    registration of the message handler and the start of polling. *)
Definition construction_call (e : event) : bool :=
  match e with
  | StoreApply | Uuid | CreateServiceBusService _ | NewServiceBusInterface _
  | NewBatchInterface _ _ | ListenerStore _ _ | ListenerSb _ _
  | SbOn _ | SbStart => true
  | _ => false
  end.

(** The creation of a transport object. *)
Definition is_transport_creation (e : event) : bool :=
  match e with
  | NewServiceBusInterface _ | NewBatchInterface _ _ => true
  | _ => false
  end.

(** A [subscribe] or [unsubscribe] under the name of a member of
    [Object.prototype]. *)
Definition inherited_registry_operation (op : operation) : bool :=
  match op with
  | OpSubscribe n _ | OpUnsubscribe n _ => inherited n
  | _ => false
  end.

(** A call that can change the entry of [name]. *)
Definition registry_operation_on (name : string) (op : operation) : bool :=
  match op with
  | OpSubscribe n _ | OpUnsubscribe n _ => bool_decide (n = name)
  | _ => false
  end.

(** [options.nodeId] is supplied when it is truthy. *)
Definition supplies_nodeId (o : Options) : bool :=
  to_boolean (string_field (opt_nodeId o)).

(** ** Fixtures: the stores and messages of the test suite *)

Definition test_createOptions : CreateOptions :=
  {| co_nodeId := "my-node-id"; co_topic := Some "t"; co_subscription := Some "s";
     co_serviceBusService := Some (ServiceObject 0) |}.

Definition test_sb : BatchInterface :=
  {| bi_options := test_createOptions;
     bi_inner := {| sbi_options := test_createOptions |} |}.

Definition test_store (m : gmap string (list consumer)) : ServiceBusStore :=
  {| nodeId := "my-node-id"; sb := test_sb; subscribers := m |}.

(** [subscriber1], [subscriber2], [subscriber2a], [subscriber3] are 1, 2, 20
    and 3. *)
Definition test_subscriptions : list (string * consumer) :=
  [ ("message1", 1); ("message2", 2); ("message2", 20); ("message3", 3) ].

Definition test_options (ls : listeners_option) : Options :=
  {| connectionString := None; serviceBusService := Some 0;
     opt_nodeId := Some "my-node-id"; topic := Some "t"; subscription := Some "s";
     listeners := ls |}.

(** * Properties *)

(** ** The monad *)

Section MonadFacts.
Context {S : Type}.

Lemma bind_ret_l {A B} (a : A) (k : A → M S B) (s : S) :
  bind (ret a) k s = k a s.
Proof. unfold bind, ret; simpl. by destruct (k a s). Qed.

Lemma bind_throw {A B} (e : error) (k : A → M S B) (s : S) :
  bind (throw e) k s = Result [] s (Throw e).
Proof. reflexivity. Qed.

Lemma bind_call {B} (ev : event) (k : unit → M S B) (s : S) :
  bind (call ev) k s =
  Result (ev :: trace (k () s)) (final (k () s)) (outcome (k () s)).
Proof. reflexivity. Qed.

Lemma bind_normal {A B} (m : M S A) (k : A → M S B) (s s' : S) t a :
  m s = Result t s' (Normal a) →
  bind m k s =
  Result (t ++ trace (k a s')) (final (k a s')) (outcome (k a s')).
Proof. intros Hm. unfold bind. rewrite Hm. reflexivity. Qed.

(** [forEach] over such a callback makes the calls of every element, element
    after element, and nothing else. *)
Lemma forEach_only_calls {A} (callback : A → M S unit) calls (arr : list A) s :
  only_calls callback calls →
  forEach arr callback s = Result (flat_map calls arr) s (Normal ()).
Proof.
  intros Hcb. induction arr as [|item rest IH]; simpl.
  - reflexivity.
  - rewrite (bind_normal _ _ _ _ _ _ (Hcb item s)), IH. reflexivity.
Qed.

End MonadFacts.

(** ** Identifiers *)

(** The constructor's [io.Store.apply(this, arguments)] reads [io], which the
    module binds; [Store] alone is bound nowhere. *)
Lemma resolve_io {S} (s : S) : resolve "io" s = Result [] s (Normal ()).
Proof. reflexivity. Qed.

Lemma resolve_Store {S} (s : S) :
  resolve "Store" s = Result [] s (Throw (ReferenceError "Store")).
Proof. reflexivity. Qed.

(** ** [filter] with the callback of [unsubscribe] *)

(** The callback returns [undefined] on every item, whatever the consumer. *)
Lemma unsubscribe_callback_falsy (c item : consumer) :
  to_boolean (unsubscribe_callback c item) = false.
Proof. reflexivity. Qed.

(** So the filtered array is empty. *)
Lemma Array_filter_unsubscribe_callback (c : consumer) (arr : list consumer) :
  Array_filter (unsubscribe_callback c) arr = [].
Proof.
  induction arr as [|item rest IH]; simpl.
  - reflexivity.
  - exact IH.
Qed.

(** ** The lookup in the registry *)

Lemma subscribers_or_empty_finds (st : ServiceBusStore) (name : string) :
  subscribers_or_empty st name =
  if finds_array (subscribers st) name
  then AnArray (default [] (subscribers st !! name))
  else NotAnArray.
Proof.
  unfold subscribers_or_empty, finds_array.
  destruct (subscribers st !! name); simpl; [done|].
  by destruct (inherited name).
Qed.

Lemma finds_array_ordinary (m : gmap string (list consumer)) (name : string) :
  inherited name = false → finds_array m name = true.
Proof. intros Hn. unfold finds_array. rewrite Hn. by destruct (m !! name). Qed.

(** An own entry stays: no method deletes a key. *)
Lemma finds_array_insert (m : gmap string (list consumer)) (name n : string)
    (entry : list consumer) :
  finds_array m name = true → finds_array (<[n := entry]> m) name = true.
Proof.
  unfold finds_array. intros Hm.
  destruct (decide (n = name)) as [->|Hn].
  - by rewrite lookup_insert_eq.
  - by rewrite lookup_insert_ne.
Qed.

Lemma finds_array_false (m : gmap string (list consumer)) (name : string) :
  finds_array m name = false → m !! name = None ∧ inherited name = true.
Proof.
  unfold finds_array. destruct (m !! name); [done|].
  by destruct (inherited name).
Qed.

(** ** Sequences of subscriptions *)

Lemma subscribe_run (st : ServiceBusStore) (name : string) (c : consumer) :
  finds_array (subscribers st) name = true →
  run (subscribe name c) st =
  Result [Emit "subscribe" [VStr name; VFun c]]
         (set_subscribers
            (<[name := default [] (subscribers st !! name) ++ [c]]> (subscribers st))
            st)
         (Normal ()).
Proof.
  intros Hname. unfold run, subscribe, bind, this; simpl.
  rewrite subscribers_or_empty_finds, Hname. reflexivity.
Qed.

Lemma subscribe_throws (st : ServiceBusStore) (name : string) (c : consumer) :
  finds_array (subscribers st) name = false →
  run (subscribe name c) st =
  Result [] st (Throw (TypeError "subscribers.push is not a function")).
Proof.
  intros Hname. unfold run, subscribe, bind, this; simpl.
  rewrite subscribers_or_empty_finds, Hname. reflexivity.
Qed.

Lemma subscribe_all_cons (r : string * consumer) regs (st : ServiceBusStore) :
  inherited r.1 = false →
  run (subscribe_all (r :: regs)) st =
  Result (Emit "subscribe" [VStr r.1; VFun r.2]
            :: trace (run (subscribe_all regs) (after_subscribe r st)))
         (final (run (subscribe_all regs) (after_subscribe r st)))
         (outcome (run (subscribe_all regs) (after_subscribe r st))).
Proof.
  intros Hr. unfold run, subscribe_all. cbn [forEach].
  rewrite (bind_normal _ _ _ _ _ _
             (subscribe_run st r.1 r.2 (finds_array_ordinary _ _ Hr))).
  reflexivity.
Qed.

(** A sequence of subscriptions under ordinary names completes, and leaves
    the node identity and the transport as they were. *)
Lemma subscribe_all_normal regs : ∀ st : ServiceBusStore,
  ordinary_names regs = true →
  outcome (run (subscribe_all regs) st) = Normal () ∧
  nodeId (final (run (subscribe_all regs) st)) = nodeId st ∧
  sb (final (run (subscribe_all regs) st)) = sb st.
Proof.
  induction regs as [|r regs IH]; intros st Hregs.
  - done.
  - simpl in Hregs. apply andb_prop in Hregs as [Hr Hregs].
    apply negb_true_iff in Hr.
    rewrite (subscribe_all_cons r regs st Hr).
    destruct (IH (after_subscribe r st) Hregs) as (Ho & Hn & Hs).
    cbn [outcome final]. rewrite Ho, Hn, Hs. done.
Qed.

(** After a sequence of subscriptions under ordinary names the entry of
    every name is what it was, followed by the consumers subscribed under
    that name, in the order of the calls. *)
Lemma subscribe_all_entry regs : ∀ (st : ServiceBusStore) (name : string),
  ordinary_names regs = true →
  default [] (subscribers (final (run (subscribe_all regs) st)) !! name) =
  default [] (subscribers st !! name) ++ registered_for name regs.
Proof.
  induction regs as [|r regs IH]; intros st name Hregs.
  - simpl. by rewrite app_nil_r.
  - simpl in Hregs. apply andb_prop in Hregs as [Hr Hregs].
    apply negb_true_iff in Hr.
    rewrite (subscribe_all_cons r regs st Hr). cbn [final].
    rewrite (IH _ _ Hregs).
    cbn [registered_for after_subscribe set_subscribers subscribers].
    case_bool_decide as Hn.
    + subst name. rewrite lookup_insert_eq. simpl. by rewrite <- app_assoc.
    + by rewrite lookup_insert_ne.
Qed.

(** ** [unsubscribe] *)

Lemma unsubscribe_run (st : ServiceBusStore) (name : string) (c : consumer) :
  finds_array (subscribers st) name = true →
  run (unsubscribe name c) st =
  Result [Emit "unsubscribe" [VStr name; VFun c]]
         (set_subscribers (<[name := []]> (subscribers st)) st)
         (Normal ()).
Proof.
  intros Hname. unfold run, unsubscribe, bind, this; simpl.
  rewrite subscribers_or_empty_finds, Hname. simpl.
  by rewrite Array_filter_unsubscribe_callback.
Qed.

Lemma unsubscribe_throws (st : ServiceBusStore) (name : string) (c : consumer) :
  finds_array (subscribers st) name = false →
  run (unsubscribe name c) st =
  Result [] st (Throw (TypeError "subscribers.filter is not a function")).
Proof.
  intros Hname. unfold run, unsubscribe, bind, this; simpl.
  rewrite subscribers_or_empty_finds, Hname. reflexivity.
Qed.

(** ** Dispatch of a received message *)

Lemma flat_map_singleton {A B} (f : A → B) (l : list A) :
  flat_map (λ x, [f x]) l = map f l.
Proof. induction l as [|x l IH]; simpl; congruence. Qed.

(** A message from another node: the calls are the [received] event and the
    applications of the own entry; the call throws, after the event and
    with no application, exactly when the lookup finds no array. *)
Lemma receiveMessage_other_node (st : ServiceBusStore) src name args :
  src ≠ nodeId st →
  run (receiveMessage src name args) st =
  Result (Emit "received" [VStr src; VStr name; VArr args]
            :: map (λ sub, Apply sub args) (default [] (subscribers st !! name)))
         st
         (if finds_array (subscribers st) name
          then Normal ()
          else Throw (TypeError "subscribers.forEach is not a function")).
Proof.
  intros Hsrc. unfold run, receiveMessage.
  rewrite bind_call. unfold bind at 1. simpl.
  rewrite bool_decide_eq_true_2 by done.
  rewrite subscribers_or_empty_finds.
  destruct (finds_array (subscribers st) name) eqn:Hname.
  - cbn [array_method]. rewrite bind_ret_l.
    rewrite (forEach_only_calls _ (λ sub, [Apply sub args])) by done.
    rewrite flat_map_singleton. reflexivity.
  - apply finds_array_false in Hname as [-> _]. reflexivity.
Qed.

Lemma receiveMessage_same_node (st : ServiceBusStore) name args :
  run (receiveMessage (nodeId st) name args) st =
  Result [Emit "received" [VStr (nodeId st); VStr name; VArr args]] st (Normal ()).
Proof.
  unfold run, receiveMessage.
  rewrite bind_call. unfold bind at 1. simpl.
  rewrite bool_decide_eq_false_2 by (intros H; by apply H).
  reflexivity.
Qed.

(** ** Construction *)

Lemma hookupListeners_run (that : ServiceBusStore) (ls : listeners_option) :
  hookupListeners that ls () =
  Result (hook_calls that (listener_list ls)) () (Normal ()).
Proof.
  unfold hookupListeners, hook_calls.
  destruct ls as [|l|ls]; by apply forEach_only_calls.
Qed.

(** The constructor, once [createServiceBusInterface] has returned [transport]
    after the calls [built]: the listeners are hooked up on the new store,
    the message handler is registered, polling starts. *)
Lemma construct_after_transport (options : option Options) (uuid : string)
    (pre built : list event) (n : string) (transport : BatchInterface) :
  nodeId_or_uuid options uuid () = Result pre () (Normal n) →
  createServiceBusInterface n options () = Result built () (Normal transport) →
  construct options uuid =
  let that := {| nodeId := n; sb := transport; subscribers := ∅ |} in
  Result (StoreApply :: pre ++ built
            ++ hook_calls that (listener_list (options_listeners options))
            ++ [SbOn "message"; SbStart])
         () (Normal that).
Proof.
  intros Hn Hsb. unfold construct, new_ServiceBusStore.
  rewrite bind_call.
  rewrite (bind_normal _ _ _ _ _ _ Hn).
  rewrite (bind_normal _ _ _ _ _ _ Hsb).
  rewrite (bind_normal _ _ _ _ _ _ (hookupListeners_run _ _)).
  reflexivity.
Qed.

(** Without any [options] the constructor fails as well, on the first
    property read of [createServiceBusInterface]. *)
Lemma construct_without_options (uuid : string) :
  construct None uuid =
  Result [StoreApply; Uuid] ()
         (Throw (TypeError "Cannot read property 'connectionString' of undefined")).
Proof. reflexivity. Qed.

(** An empty connection string is falsy: next to a service object it is not
    a second transport source, and the store is built on the service. *)
Lemma construct_empty_connectionString :
  let o := {| connectionString := Some ""; serviceBusService := Some 0;
              opt_nodeId := Some "my-node-id"; topic := Some "t";
              subscription := Some "s"; listeners := ListenersUndefined |} in
  outcome (construct (Some o) "uuid") = Normal (test_store ∅).
Proof. reflexivity. Qed.

(** The node identity is chosen without any call on a transport. *)
Lemma nodeId_or_uuid_run (options : option Options) (uuid : string) :
  ∃ pre n, nodeId_or_uuid options uuid () = Result pre () (Normal n) ∧
           (pre = [] ∨ pre = [Uuid]).
Proof.
  unfold nodeId_or_uuid.
  destruct options as [[? ? [[|a s]|] ? ? ?]|]; simpl; eauto.
Qed.

(** * The claims of the specification *)

(** ** unsubscribe *)

(** C1. The specification asks that [unsubscribe(name, consumer)] remove that
    consumer only.  On the store of the test suite, where [message2] has the
    consumers 2 and 20 in this order, [unsubscribe('message2', 2)] leaves the
    entry empty where the specification keeps 20, and unsubscribing 7, which
    was never subscribed, empties the entry as well instead of leaving it
    alone.  The [unsubscribe] event is emitted in both cases. *)
Theorem unsubscribe_loses_other_consumers :
  let st := final (run (subscribe_all test_subscriptions) (test_store ∅)) in
  subscribers st !! "message2" = Some [2; 20] ∧
  spec_unsubscribe_entry 2 [2; 20] = [20] ∧
  subscribers (final (run (unsubscribe "message2" 2) st)) !! "message2" = Some [] ∧
  spec_unsubscribe_entry 7 [2; 20] = [2; 20] ∧
  subscribers (final (run (unsubscribe "message2" 7) st)) !! "message2" = Some [] ∧
  trace (run (unsubscribe "message2" 2) st) =
    [Emit "unsubscribe" [VStr "message2"; VFun 2]].
Proof. vm_compute. done. Qed.

(** C9. [unsubscribe(name, consumer)] returns exactly when the lookup of
    [name] gives an array, that is for every name but the names of the
    members of [Object.prototype] that have no entry.  When it returns, the
    entry of [name] is the empty array, whatever it held before and whether
    or not [consumer] was in it, and also when [name] had no entry; the other
    entries are untouched and the [unsubscribe] event has been emitted.  In
    the remaining case it throws at [filter] and the store is as it was. *)
Theorem unsubscribe_empties_entry (st : ServiceBusStore) (name : string)
    (c : consumer) :
  run (unsubscribe name c) st =
    (if finds_array (subscribers st) name
     then Result [Emit "unsubscribe" [VStr name; VFun c]]
                 (set_subscribers (<[name := []]> (subscribers st)) st)
                 (Normal ())
     else Result [] st
                 (Throw (TypeError "subscribers.filter is not a function"))) ∧
  match outcome (run (unsubscribe name c) st) with
  | Normal _ => subscribers (final (run (unsubscribe name c) st)) !! name = Some []
  | Throw _ => final (run (unsubscribe name c) st) = st
  end.
Proof.
  destruct (finds_array (subscribers st) name) eqn:Hname.
  - rewrite (unsubscribe_run st name c Hname). split; [done|].
    simpl. apply lookup_insert_eq.
  - rewrite (unsubscribe_throws st name c Hname). done.
Qed.

(** ** destroy *)

(** C2. [destroy()] is to stop the transport and clear the registry.  Its
    first statement reads [Store], which nothing in the module binds (the
    base class is reached as [io.Store] in the constructor): every call of
    [destroy] throws a [ReferenceError] before [this.sb.stop()] is reached,
    and the store, registry included, is left as it was. *)
Theorem destroy_throws_before_stop (st : ServiceBusStore) :
  run destroy st = Result [] st (Throw (ReferenceError "Store")).
Proof.
  unfold run, destroy, bind.
  rewrite resolve_Store. reflexivity.
Qed.

(** ** receiveMessage *)

(** C3. A message whose source is the store's own node identity makes one
    call only, the emission of [received] with the source, the name and the
    arguments: no subscriber is applied, whatever the registry holds. *)
Theorem receiveMessage_from_self_only_emits (st : ServiceBusStore)
    (name : string) (args : list value) :
  run (receiveMessage (nodeId st) name args) st =
  Result [Emit "received" [VStr (nodeId st); VStr name; VArr args]]
         st (Normal ()).
Proof. apply receiveMessage_same_node. Qed.

(** C4. A message from another node: after the [received] event, the
    consumers of the entry of [name] are applied to [args], one application
    per registration, in the order of the entry, and nothing else is called.
    A name without an entry has no consumer and none is applied; the call
    then returns, except under the name of a member of [Object.prototype],
    where it throws after the event.  When the registry was filled by a
    sequence of [subscribe] calls under ordinary names, the consumers applied
    are the ones subscribed under [name], in the order of the calls; a
    consumer subscribed under another name only is not applied. *)
Theorem receiveMessage_applies_registered_in_order (st : ServiceBusStore)
    (src name : string) (args : list value) (regs : list (string * consumer)) :
  src ≠ nodeId st →
  ordinary_names regs = true →
  run (receiveMessage src name args) st =
    Result (Emit "received" [VStr src; VStr name; VArr args]
              :: map (λ sub, Apply sub args) (default [] (subscribers st !! name)))
           st
           (if finds_array (subscribers st) name
            then Normal ()
            else Throw (TypeError "subscribers.forEach is not a function")) ∧
  trace (run (receiveMessage src name args)
             (final (run (subscribe_all regs) (set_subscribers ∅ st)))) =
    Emit "received" [VStr src; VStr name; VArr args]
      :: map (λ sub, Apply sub args) (registered_for name regs).
Proof.
  intros Hsrc Hregs. split.
  - by apply receiveMessage_other_node.
  - destruct (subscribe_all_normal regs (set_subscribers ∅ st) Hregs)
      as (_ & Hn & _).
    rewrite receiveMessage_other_node by (by rewrite Hn).
    cbn [trace]. rewrite subscribe_all_entry by done. simpl.
    by rewrite lookup_empty.
Qed.

Lemma receiveMessage_applies_registered_in_order_witness :
  "some-other-node" ≠ nodeId (test_store {[ "message2" := [2; 20] ]}) ∧
  ordinary_names test_subscriptions = true ∧
  run (receiveMessage "some-other-node" "message2"
         [VNum 6; VNum 7; VStr "eight"]) (test_store {[ "message2" := [2; 20] ]}) =
    Result (Emit "received" [VStr "some-other-node"; VStr "message2";
                             VArr [VNum 6; VNum 7; VStr "eight"]]
              :: map (λ sub, Apply sub [VNum 6; VNum 7; VStr "eight"])
                   (default [] (subscribers (test_store {[ "message2" := [2; 20] ]})
                                  !! "message2")))
           (test_store {[ "message2" := [2; 20] ]})
           (if finds_array (subscribers (test_store {[ "message2" := [2; 20] ]}))
                 "message2"
            then Normal ()
            else Throw (TypeError "subscribers.forEach is not a function")) ∧
  trace (run (receiveMessage "some-other-node" "message2"
                [VNum 6; VNum 7; VStr "eight"])
             (final (run (subscribe_all test_subscriptions)
                       (set_subscribers ∅ (test_store {[ "message2" := [2; 20] ]}))))) =
    Emit "received" [VStr "some-other-node"; VStr "message2";
                     VArr [VNum 6; VNum 7; VStr "eight"]]
      :: map (λ sub, Apply sub [VNum 6; VNum 7; VStr "eight"])
           (registered_for "message2" test_subscriptions).
Proof.
  split; [discriminate|]. split; [reflexivity|].
  apply (receiveMessage_applies_registered_in_order
           (test_store {[ "message2" := [2; 20] ]}) "some-other-node" "message2"
           [VNum 6; VNum 7; VStr "eight"] test_subscriptions).
  - discriminate.
  - reflexivity.
Defined.




(** ** publish and subscribe *)

(** C6. [publish(name, ...args)] makes two calls and returns: one
    [send(name, args)] on the batching transport, with the arguments after
    the name as one array in their order, then one emission of [publish]
    with the name followed by the arguments.  Nothing of the store is read
    to decide the emission, the transport's state included, and the store is
    unchanged. *)
Theorem publish_sends_once_and_emits_once (st : ServiceBusStore)
    (name : value) (args : list value) :
  run (publish (name :: args)) st =
  Result [SbSend name args; Emit "publish" (name :: args)] st (Normal ()).
Proof.
  unfold run, publish.
  rewrite bind_call. simpl hd. simpl drop.
  reflexivity.
Qed.




(** ** Construction *)

(** C5. Options in which both [connectionString] and [serviceBusService] are
    supplied, or neither is: [new ServiceBusStore(options)] throws the
    configuration error of the case.  Up to the throw the constructor has
    called the base constructor and at most [uuid()]; no service, no
    transport object has been created, nothing has been started, and the
    caller gets the error in place of a store. *)
Theorem construct_rejects_both_or_neither (o : Options) (uuid : string) :
  (supplies_connectionString o = true ∧ supplies_serviceBusService o = true) ∨
  (supplies_connectionString o = false ∧ supplies_serviceBusService o = false) →
  outcome (construct (Some o) uuid) =
    Throw (Error (if supplies_connectionString o
                  then "Should specify connection string or serviceBusService object, not both"
                  else "Must specify one of connectionString or serviceBusService in options")) ∧
  (trace (construct (Some o) uuid) = [StoreApply] ∨
   trace (construct (Some o) uuid) = [StoreApply; Uuid]).
Proof.
  unfold supplies_connectionString, supplies_serviceBusService.
  destruct o as [[[|a cs]|] [svc|] [[|b n]|] t s ls]; simpl;
    intros [[H1 H2]|[H1 H2]]; try discriminate; split; auto.
Qed.

Lemma construct_rejects_both_or_neither_witness :
  ((supplies_connectionString
      {| connectionString := Some "Endpoint=sb://x"; serviceBusService := Some 0;
         opt_nodeId := None; topic := Some "t"; subscription := Some "s";
         listeners := ListenerArray [7] |} = true ∧
    supplies_serviceBusService
      {| connectionString := Some "Endpoint=sb://x"; serviceBusService := Some 0;
         opt_nodeId := None; topic := Some "t"; subscription := Some "s";
         listeners := ListenerArray [7] |} = true) ∨
   (supplies_connectionString
      {| connectionString := Some "Endpoint=sb://x"; serviceBusService := Some 0;
         opt_nodeId := None; topic := Some "t"; subscription := Some "s";
         listeners := ListenerArray [7] |} = false ∧
    supplies_serviceBusService
      {| connectionString := Some "Endpoint=sb://x"; serviceBusService := Some 0;
         opt_nodeId := None; topic := Some "t"; subscription := Some "s";
         listeners := ListenerArray [7] |} = false)) ∧
  outcome (construct
             (Some {| connectionString := Some "Endpoint=sb://x";
                      serviceBusService := Some 0;
                      opt_nodeId := None; topic := Some "t";
                      subscription := Some "s";
                      listeners := ListenerArray [7] |}) "uuid-1") =
    Throw (Error "Should specify connection string or serviceBusService object, not both") ∧
  (trace (construct
            (Some {| connectionString := Some "Endpoint=sb://x";
                     serviceBusService := Some 0;
                     opt_nodeId := None; topic := Some "t";
                     subscription := Some "s";
                     listeners := ListenerArray [7] |}) "uuid-1") = [StoreApply] ∨
   trace (construct
            (Some {| connectionString := Some "Endpoint=sb://x";
                     serviceBusService := Some 0;
                     opt_nodeId := None; topic := Some "t";
                     subscription := Some "s";
                     listeners := ListenerArray [7] |}) "uuid-1") = [StoreApply; Uuid]).
Proof.
  split; [left; split; reflexivity|].
  apply (construct_rejects_both_or_neither
           {| connectionString := Some "Endpoint=sb://x"; serviceBusService := Some 0;
              opt_nodeId := None; topic := Some "t"; subscription := Some "s";
              listeners := ListenerArray [7] |} "uuid-1").
  left; split; reflexivity.
Defined.

(** C8. Options with exactly one transport source and with listeners, one
    object or an array: the constructor returns the store, and its calls are,
    in this order, the ones that lead to the batching transport, the creation
    of the batching transport that the store holds, then for every listener
    in the order of the array its [store] hook with the store and its [sb]
    hook with that transport, then the registration of the message handler,
    then [start()].  Every listener position gets each hook once. *)
Theorem construct_hooks_listeners_before_start (o : Options) (uuid : string) :
  supplies_connectionString o ≠ supplies_serviceBusService o →
  ∃ (that : ServiceBusStore) (pre : list event),
    outcome (construct (Some o) uuid) = Normal that ∧
    subscribers that = ∅ ∧
    forallb before_transport pre = true ∧
    trace (construct (Some o) uuid) =
      pre ++ NewBatchInterface (bi_options (sb that)) (bi_inner (sb that))
          :: hook_calls that (listener_list (listeners o))
          ++ [SbOn "message"; SbStart].
Proof.
  intros Hone.
  destruct (nodeId_or_uuid_run (Some o) uuid) as (pre & n & Hn & Hpre).
  assert (Hsb : ∃ built bi,
    createServiceBusInterface n (Some o) () =
      Result (built ++ [NewBatchInterface (bi_options bi) (bi_inner bi)]) ()
             (Normal bi) ∧
    forallb before_transport built = true).
  { revert Hone. unfold supplies_connectionString, supplies_serviceBusService.
    destruct o as [[[|a cs]|] [svc|] nid t s ls]; simpl; intros Hone;
      try congruence.
    - eexists [_], {| bi_options := _; bi_inner := _ |}. split; reflexivity.
    - eexists [_; _], {| bi_options := _; bi_inner := _ |}. split; reflexivity.
    - eexists [_], {| bi_options := _; bi_inner := _ |}. split; reflexivity. }
  destruct Hsb as (built & bi & Hsb & Hbuilt).
  exists {| nodeId := n; sb := bi; subscribers := ∅ |}, (StoreApply :: pre ++ built).
  rewrite (construct_after_transport _ _ _ _ _ _ Hn Hsb). simpl.
  repeat split.
  - rewrite forallb_app, Hbuilt.
    by destruct Hpre as [-> | ->].
  - by rewrite <- !app_assoc.
Qed.

Lemma construct_hooks_listeners_before_start_witness :
  supplies_connectionString (test_options (ListenerArray [7; 8]))
    ≠ supplies_serviceBusService (test_options (ListenerArray [7; 8])) ∧
  ∃ (that : ServiceBusStore) (pre : list event),
    outcome (construct (Some (test_options (ListenerArray [7; 8]))) "uuid-1")
      = Normal that ∧
    subscribers that = ∅ ∧
    forallb before_transport pre = true ∧
    trace (construct (Some (test_options (ListenerArray [7; 8]))) "uuid-1") =
      pre ++ NewBatchInterface (bi_options (sb that)) (bi_inner (sb that))
          :: hook_calls that
               (listener_list (listeners (test_options (ListenerArray [7; 8]))))
          ++ [SbOn "message"; SbStart].
Proof.
  split; [discriminate|].
  apply (construct_hooks_listeners_before_start
           (test_options (ListenerArray [7; 8])) "uuid-1").
  discriminate.
Defined.

(** * Further properties of the store *)

(** ** One call *)

Lemma set_subscribers_same (st : ServiceBusStore) :
  set_subscribers (subscribers st) st = st.
Proof. by destruct st. Qed.

Lemma receiveMessage_run (st : ServiceBusStore) src name args :
  run (receiveMessage src name args) st =
  Result (operation_calls st (OpReceive src name args)) st
         (if bool_decide (src ≠ nodeId st)
               && negb (finds_array (subscribers st) name)
          then Throw (TypeError "subscribers.forEach is not a function")
          else Normal ()).
Proof.
  simpl. case_bool_decide as Hsrc.
  - rewrite receiveMessage_other_node by done.
    by destruct (finds_array (subscribers st) name).
  - subst src. apply receiveMessage_same_node.
Qed.

(** The calls of one operation and the store it leaves: only the registry
    can differ, and as [registry_step] says. *)
Lemma perform_run (op : operation) (st : ServiceBusStore) :
  trace (run (perform op) st) = operation_calls st op ∧
  final (run (perform op) st) =
    set_subscribers (registry_step op (subscribers st)) st.
Proof.
  destruct op as [arguments|name c|name c|src name args|];
    cbn [perform registry_step operation_calls].
  - rewrite set_subscribers_same. done.
  - destruct (finds_array (subscribers st) name) eqn:Hname.
    + rewrite subscribe_run by done. done.
    + rewrite subscribe_throws by done. by rewrite set_subscribers_same.
  - destruct (finds_array (subscribers st) name) eqn:Hname.
    + rewrite unsubscribe_run by done. done.
    + rewrite unsubscribe_throws by done. by rewrite set_subscribers_same.
  - rewrite receiveMessage_run, set_subscribers_same. done.
  - rewrite set_subscribers_same. done.
Qed.

Lemma history_cons (op : operation) ops (st : ServiceBusStore) :
  history (op :: ops) st =
  (operation_calls st op
     ++ (history ops (set_subscribers (registry_step op (subscribers st)) st)).1,
   (history ops (set_subscribers (registry_step op (subscribers st)) st)).2).
Proof.
  destruct (perform_run op st) as [Ht Hf].
  simpl. by rewrite Ht, Hf.
Qed.

Lemma history_app ops1 : ∀ ops2 (st : ServiceBusStore),
  history (ops1 ++ ops2) st =
  ((history ops1 st).1 ++ (history ops2 (history ops1 st).2).1,
   (history ops2 (history ops1 st).2).2).
Proof.
  induction ops1 as [|op ops1 IH]; intros ops2 st.
  - simpl. by destruct (history ops2 st).
  - rewrite <- app_comm_cons, !history_cons, IH. simpl.
    by rewrite <- app_assoc.
Qed.

(** ** What the applications of subscribers are not *)

Lemma filter_applications (p : event → bool) args (l : list consumer) :
  (∀ sub, p (Apply sub args) = false) →
  List.filter p (map (λ sub, Apply sub args) l) = [].
Proof.
  intros Hp. induction l as [|sub l IH]; simpl.
  - reflexivity.
  - by rewrite Hp.
Qed.

Lemma operation_calls_sends (st : ServiceBusStore) (op : operation) :
  List.filter is_send (operation_calls st op) = operation_send op.
Proof.
  destruct op as [arguments|name c|name c|src name args|]; simpl; try done.
  - by destruct (finds_array (subscribers st) name).
  - by destruct (finds_array (subscribers st) name).
  - case_bool_decide; [|done]. by apply filter_applications.
Qed.

(** A call that returns emits its event; [subscribe] and [unsubscribe]
    return under every name that is not inherited. *)
Lemma operation_calls_emits (st : ServiceBusStore) (op : operation) :
  inherited_registry_operation op = false →
  List.filter is_emit (operation_calls st op) = operation_emit op.
Proof.
  destruct op as [arguments|name c|name c|src name args|]; simpl;
    intros Hop; try done.
  - by rewrite (finds_array_ordinary _ _ Hop).
  - by rewrite (finds_array_ordinary _ _ Hop).
  - case_bool_decide; [|done]. by rewrite filter_applications.
Qed.

Lemma operation_calls_not_construction (st : ServiceBusStore) (op : operation) :
  List.filter construction_call (operation_calls st op) = [].
Proof.
  destruct op as [arguments|name c|name c|src name args|]; simpl; try done.
  - by destruct (finds_array (subscribers st) name).
  - by destruct (finds_array (subscribers st) name).
  - case_bool_decide; [|done]. by apply filter_applications.
Qed.

(** An application in the calls of one operation: the operation is the
    reception of a message from another node, the arguments are those of the
    message, the consumer is in the entry of the message's name. *)
Lemma operation_calls_application (st : ServiceBusStore) (op : operation)
    (c : consumer) (a : list value) :
  In (Apply c a) (operation_calls st op) →
  ∃ src name, op = OpReceive src name a ∧ src ≠ nodeId st ∧
              In c (default [] (subscribers st !! name)).
Proof.
  destruct op as [arguments|name c'|name c'|src name args|]; simpl.
  - intros [H|[H|[]]]; discriminate H.
  - destruct (finds_array (subscribers st) name); [|done].
    intros [H|[]]; discriminate H.
  - destruct (finds_array (subscribers st) name); [|done].
    intros [H|[]]; discriminate H.
  - intros [H|H]; [discriminate H|].
    case_bool_decide as Hsrc; [|done].
    apply in_map_iff in H as (sub & Heq & Hin).
    injection Heq as -> ->. eauto.
  - done.
Qed.

(** ** One call and the registry *)

(** A call that is no [subscribe] or [unsubscribe] under [name] leaves the
    entry of [name] as it is, absent or present. *)
Lemma registry_step_elsewhere (op : operation)
    (m : gmap string (list consumer)) (name : string) :
  registry_operation_on name op = false →
  registry_step op m !! name = m !! name.
Proof.
  destruct op as [arguments|n c|n c|src n args|]; simpl; try done;
    intros Hn; apply bool_decide_eq_false in Hn;
    (destruct (finds_array m n); [by rewrite lookup_insert_ne|done]).
Qed.

(** Where the lookup of [name] gives an array, it still does after a call,
    and the entry has changed as [entry_after] says. *)
Lemma registry_step_entry (op : operation) (m : gmap string (list consumer))
    (name : string) :
  finds_array m name = true →
  default [] (registry_step op m !! name) =
    entry_after name [op] (default [] (m !! name)) ∧
  finds_array (registry_step op m) name = true.
Proof.
  intros Hname.
  destruct op as [arguments|n c|n c|src n args|]; simpl; try done.
  - destruct (decide (n = name)) as [->|Hn].
    + rewrite Hname, bool_decide_eq_true_2 by done.
      rewrite lookup_insert_eq. split; [done|by apply finds_array_insert].
    + rewrite bool_decide_eq_false_2 by done.
      destruct (finds_array m n); [|done].
      rewrite lookup_insert_ne by done. split; [done|by apply finds_array_insert].
  - destruct (decide (n = name)) as [->|Hn].
    + rewrite Hname, bool_decide_eq_true_2 by done.
      rewrite lookup_insert_eq. split; [done|by apply finds_array_insert].
    + rewrite bool_decide_eq_false_2 by done.
      destruct (finds_array m n); [|done].
      rewrite lookup_insert_ne by done. split; [done|by apply finds_array_insert].
Qed.

(** A consumer of an entry after a call was in the entry before, or the call
    subscribed it under the name. *)
Lemma registry_step_origin (op : operation) (m : gmap string (list consumer))
    (name : string) (c : consumer) :
  In c (default [] (registry_step op m !! name)) →
  In c (default [] (m !! name)) ∨ op = OpSubscribe name c.
Proof.
  destruct op as [arguments|n c'|n c'|src n args|]; simpl; try (by left).
  - destruct (finds_array m n); [|by left].
    destruct (decide (n = name)) as [->|Hn].
    + rewrite lookup_insert_eq. simpl.
      intros Hin. apply in_app_or in Hin as [Hin|[->|[]]]; [by left|by right].
    + rewrite lookup_insert_ne by done. by left.
  - destruct (finds_array m n); [|by left].
    destruct (decide (n = name)) as [->|Hn].
    + rewrite lookup_insert_eq. done.
    + rewrite lookup_insert_ne by done. by left.
Qed.

(** No call creates an entry under the name of a member of
    [Object.prototype]. *)
Lemma registry_step_inherited (op : operation)
    (m : gmap string (list consumer)) (name : string) :
  inherited name = true → m !! name = None →
  registry_step op m !! name = None.
Proof.
  intros Hinh Hnone.
  destruct op as [arguments|n c|n c|src n args|]; simpl; try done.
  - destruct (decide (n = name)) as [->|Hn].
    + unfold finds_array. by rewrite Hnone, Hinh.
    + destruct (finds_array m n); [by rewrite lookup_insert_ne|done].
  - destruct (decide (n = name)) as [->|Hn].
    + unfold finds_array. by rewrite Hnone, Hinh.
    + destruct (finds_array m n); [by rewrite lookup_insert_ne|done].
Qed.

Lemma entry_after_cons (name : string) (op : operation) ops entry :
  entry_after name (op :: ops) entry =
  entry_after name ops (entry_after name [op] entry).
Proof. by destruct op. Qed.

Lemma entry_after_app (name : string) ops1 : ∀ ops2 entry,
  entry_after name (ops1 ++ ops2) entry =
  entry_after name ops2 (entry_after name ops1 entry).
Proof.
  induction ops1 as [|op ops1 IH]; intros ops2 entry.
  - done.
  - rewrite <- app_comm_cons, entry_after_cons, IH.
    by rewrite (entry_after_cons name op ops1).
Qed.

(** ** Invariants of a history *)

Lemma history_identity (ops : list operation) : ∀ st : ServiceBusStore,
  nodeId (history ops st).2 = nodeId st ∧ sb (history ops st).2 = sb st.
Proof.
  induction ops as [|op ops IH]; intros st.
  - done.
  - rewrite history_cons. simpl.
    destruct (IH (set_subscribers (registry_step op (subscribers st)) st))
      as [Hn Hs].
    by rewrite Hn, Hs.
Qed.

(** X1. No sequence of calls changes the node identity of a store or the
    batching transport it holds. *)
Theorem history_keeps_identity (ops : list operation) (st : ServiceBusStore) :
  nodeId (history ops st).2 = nodeId st ∧ sb (history ops st).2 = sb st.
Proof. apply history_identity. Qed.

(** X2. Whatever is called in between, the [send] calls on the transport are
    those of the [publish] calls, one for one and in the same order, each with
    the first argument as name and the remaining ones as the array. *)
Theorem history_sends_follow_publishes (ops : list operation) :
  ∀ st : ServiceBusStore,
  List.filter is_send (history ops st).1 = flat_map operation_send ops.
Proof.
  induction ops as [|op ops IH]; intros st.
  - done.
  - rewrite history_cons. simpl.
    by rewrite List.filter_app, operation_calls_sends, IH.
Qed.

(** X3. In a history whose [subscribe] and [unsubscribe] calls are under
    names that are not names of members of [Object.prototype], the local
    events are those of the calls, in the order of the calls: one [publish],
    [subscribe], [unsubscribe] or [received] event for each call of that
    kind, with the arguments of the call, and none for [destroy]. *)
Theorem history_emits_follow_calls (ops : list operation) :
  ∀ st : ServiceBusStore,
  forallb (λ op, negb (inherited_registry_operation op)) ops = true →
  List.filter is_emit (history ops st).1 = flat_map operation_emit ops.
Proof.
  induction ops as [|op ops IH]; intros st Hops.
  - done.
  - simpl in Hops. apply andb_prop in Hops as [Hop Hops].
    apply negb_true_iff in Hop.
    rewrite history_cons. simpl.
    by rewrite List.filter_app, operation_calls_emits, IH.
Qed.

Lemma history_emits_follow_calls_witness :
  forallb (λ op, negb (inherited_registry_operation op))
    [OpSubscribe "message2" 2; OpPublish [VStr "m"; VNum 1];
     OpReceive "some-other-node" "toString" [VNum 6];
     OpUnsubscribe "message2" 2; OpDestroy] = true ∧
  List.filter is_emit
    (history [OpSubscribe "message2" 2; OpPublish [VStr "m"; VNum 1];
              OpReceive "some-other-node" "toString" [VNum 6];
              OpUnsubscribe "message2" 2; OpDestroy] (test_store ∅)).1 =
  flat_map operation_emit
    [OpSubscribe "message2" 2; OpPublish [VStr "m"; VNum 1];
     OpReceive "some-other-node" "toString" [VNum 6];
     OpUnsubscribe "message2" 2; OpDestroy].
Proof.
  split; [reflexivity|].
  apply (history_emits_follow_calls
           [OpSubscribe "message2" 2; OpPublish [VStr "m"; VNum 1];
            OpReceive "some-other-node" "toString" [VNum 6];
            OpUnsubscribe "message2" 2; OpDestroy] (test_store ∅)).
  reflexivity.
Defined.

(** X4. After construction no call on the store is a construction call: no
    sequence of methods creates a service or a transport, calls a listener
    hook, registers the message handler again or starts polling again. *)
Theorem history_has_no_construction_call (ops : list operation) :
  ∀ st : ServiceBusStore,
  List.filter construction_call (history ops st).1 = [].
Proof.
  induction ops as [|op ops IH]; intros st.
  - done.
  - rewrite history_cons. simpl.
    by rewrite List.filter_app, operation_calls_not_construction, IH.
Qed.

(** X5. The registry after a history depends on its [subscribe] and
    [unsubscribe] calls only: leaving out every [publish], [receiveMessage]
    and [destroy] gives the same registry. *)
Theorem history_registry_by_registry_operations (ops : list operation) :
  ∀ st : ServiceBusStore,
  subscribers (history ops st).2 =
  subscribers (history (List.filter registry_operation ops) st).2.
Proof.
  induction ops as [|op ops IH]; intros st.
  - done.
  - rewrite history_cons. cbn [snd List.filter]. rewrite IH.
    destruct op as [arguments|n c|n c|src n args|]; cbn [registry_operation];
      try (rewrite history_cons; done);
      cbn [registry_step]; by rewrite set_subscribers_same.
Qed.

Lemma history_entry_after (ops : list operation) :
  ∀ (st : ServiceBusStore) (name : string),
  finds_array (subscribers st) name = true →
  default [] (subscribers (history ops st).2 !! name) =
  entry_after name ops (default [] (subscribers st !! name)).
Proof.
  induction ops as [|op ops IH]; intros st name Hname.
  - done.
  - destruct (registry_step_entry op (subscribers st) name Hname)
      as [Hentry Hstill].
    rewrite history_cons. cbn [snd]. rewrite IH by done.
    cbn [set_subscribers subscribers].
    by rewrite Hentry, (entry_after_cons name op ops).
Qed.

Lemma history_inherited (ops : list operation) :
  ∀ (st : ServiceBusStore) (name : string),
  inherited name = true → subscribers st !! name = None →
  subscribers (history ops st).2 !! name = None.
Proof.
  induction ops as [|op ops IH]; intros st name Hinh Hnone.
  - done.
  - rewrite history_cons. cbn [snd]. apply IH; [done|].
    by apply registry_step_inherited.
Qed.

Lemma history_elsewhere (ops : list operation) :
  ∀ (st : ServiceBusStore) (name : string),
  forallb (λ op, negb (registry_operation_on name op)) ops = true →
  subscribers (history ops st).2 !! name = subscribers st !! name.
Proof.
  induction ops as [|op ops IH]; intros st name Hops.
  - done.
  - simpl in Hops. apply andb_prop in Hops as [Hop Hops].
    apply negb_true_iff in Hop.
    rewrite history_cons. cbn [snd]. rewrite IH by done.
    by apply registry_step_elsewhere.
Qed.

(** X6. For a name whose lookup gives an array at the start, that is a name
    with an entry or a name that is not the name of a member of
    [Object.prototype], the entry after a history is read off the calls: the
    entry before, emptied at every [unsubscribe] under the name, extended at
    the end by every consumer subscribed under the name, in the order of the
    calls. *)
Theorem history_entry (ops : list operation) (st : ServiceBusStore)
    (name : string) :
  finds_array (subscribers st) name = true →
  default [] (subscribers (history ops st).2 !! name) =
  entry_after name ops (default [] (subscribers st !! name)).
Proof. apply history_entry_after. Qed.

Lemma history_entry_witness :
  finds_array (subscribers (test_store {[ "message2" := [2] ]})) "message2"
    = true ∧
  default [] (subscribers
    (history [OpSubscribe "message2" 20; OpSubscribe "constructor" 5;
              OpUnsubscribe "message2" 7; OpSubscribe "message2" 21;
              OpReceive "some-other-node" "message2" []; OpSubscribe "message2" 22]
             (test_store {[ "message2" := [2] ]})).2 !! "message2") =
  entry_after "message2"
    [OpSubscribe "message2" 20; OpSubscribe "constructor" 5;
     OpUnsubscribe "message2" 7; OpSubscribe "message2" 21;
     OpReceive "some-other-node" "message2" []; OpSubscribe "message2" 22]
    (default [] (subscribers (test_store {[ "message2" := [2] ]}) !! "message2")).
Proof.
  split; [reflexivity|].
  apply (history_entry
           [OpSubscribe "message2" 20; OpSubscribe "constructor" 5;
            OpUnsubscribe "message2" 7; OpSubscribe "message2" 21;
            OpReceive "some-other-node" "message2" []; OpSubscribe "message2" 22]
           (test_store {[ "message2" := [2] ]}) "message2").
  reflexivity.
Defined.

(** X7. An [unsubscribe] under a name makes the store forget every earlier
    subscription under that name, whichever consumer it names: the entry at
    the end of the history is the one the calls after the [unsubscribe]
    build from an empty registry.  This holds for every name that is not the
    name of a member of [Object.prototype], and for such a name as long as
    the store has no entry under it at the start, which is the case of every
    store that the constructor and the methods produce. *)
Theorem history_unsubscribe_forgets (ops1 ops2 : list operation)
    (st : ServiceBusStore) (name : string) (c : consumer) :
  inherited name = false ∨ subscribers st !! name = None →
  default [] (subscribers
                (history (ops1 ++ OpUnsubscribe name c :: ops2) st).2 !! name) =
  default [] (subscribers (history ops2 (set_subscribers ∅ st)).2 !! name).
Proof.
  intros Hname. destruct (inherited name) eqn:Hinh.
  - destruct Hname as [Hname|Hname]; [discriminate Hname|].
    rewrite !history_inherited; done.
  - rewrite !history_entry_after by (by apply finds_array_ordinary).
    rewrite entry_after_app. simpl.
    rewrite bool_decide_eq_true_2 by done.
    by rewrite lookup_empty.
Qed.

Lemma history_unsubscribe_forgets_witness :
  (inherited "message2" = false ∨
   subscribers (test_store {[ "message2" := [2; 20] ]}) !! "message2" = None) ∧
  default [] (subscribers
    (history ([OpSubscribe "message2" 21] ++
              OpUnsubscribe "message2" 2 ::
              [OpSubscribe "message2" 22; OpSubscribe "message1" 1])
             (test_store {[ "message2" := [2; 20] ]})).2 !! "message2") =
  default [] (subscribers
    (history [OpSubscribe "message2" 22; OpSubscribe "message1" 1]
             (set_subscribers ∅ (test_store {[ "message2" := [2; 20] ]}))).2
    !! "message2").
Proof.
  split; [left; reflexivity|].
  apply (history_unsubscribe_forgets [OpSubscribe "message2" 21]
           [OpSubscribe "message2" 22; OpSubscribe "message1" 1]
           (test_store {[ "message2" := [2; 20] ]}) "message2" 2).
  left; reflexivity.
Defined.

(** Without the condition of X7 the equation fails: a store that has been
    given an entry under [toString] from outside loses and refills it like any
    other, while on an empty registry [subscribe('toString', f)] throws. *)
Lemma history_unsubscribe_forgets_needs_condition :
  default [] (subscribers
    (history ([] ++ OpUnsubscribe "toString" 1 :: [OpSubscribe "toString" 2])
             (test_store {[ "toString" := [1] ]})).2 !! "toString") = [2] ∧
  default [] (subscribers
    (history [OpSubscribe "toString" 2]
             (set_subscribers ∅ (test_store {[ "toString" := [1] ]}))).2
    !! "toString") = [].
Proof. split; reflexivity. Qed.

(** X8. Every application of a consumer in a history has a cause in it: a
    message received from another node, whose arguments are the arguments of
    the application, and under whose name the consumer was registered at the
    start or was subscribed by a call of the history.  In particular a
    message of the store's own node identity is never dispatched, and
    [publish], [subscribe] and [unsubscribe] apply no consumer. *)
Theorem history_application_has_cause (ops : list operation) :
  ∀ (st : ServiceBusStore) (c : consumer) (a : list value),
  In (Apply c a) (history ops st).1 →
  ∃ src name,
    In (OpReceive src name a) ops ∧ src ≠ nodeId st ∧
    (In c (default [] (subscribers st !! name)) ∨ In (OpSubscribe name c) ops).
Proof.
  induction ops as [|op ops IH]; intros st c a Hin.
  - destruct Hin.
  - rewrite history_cons in Hin. cbn [fst] in Hin.
    apply in_app_or in Hin as [Hin|Hin].
    + apply operation_calls_application in Hin as (src & name & -> & Hsrc & Hc).
      exists src, name. split; [by left|]. split; [done|by left].
    + apply IH in Hin as (src & name & Hrecv & Hsrc & Hc).
      exists src, name. split; [by right|]. split; [done|].
      destruct Hc as [Hc|Hc]; [|right; by right].
      cbn [set_subscribers subscribers] in Hc.
      apply registry_step_origin in Hc as [Hc| ->]; [by left|].
      right. by left.
Qed.

Lemma history_application_has_cause_witness :
  In (Apply 2 [VNum 6])
     (history [OpSubscribe "message2" 2; OpPublish [VStr "m"; VNum 1];
               OpReceive "my-node-id" "message2" [VNum 5];
               OpReceive "some-other-node" "message2" [VNum 6]]
              (test_store ∅)).1 ∧
  ∃ src name,
    In (OpReceive src name [VNum 6])
       [OpSubscribe "message2" 2; OpPublish [VStr "m"; VNum 1];
        OpReceive "my-node-id" "message2" [VNum 5];
        OpReceive "some-other-node" "message2" [VNum 6]] ∧
    src ≠ nodeId (test_store ∅) ∧
    (In 2 (default [] (subscribers (test_store ∅) !! name)) ∨
     In (OpSubscribe name 2)
        [OpSubscribe "message2" 2; OpPublish [VStr "m"; VNum 1];
         OpReceive "my-node-id" "message2" [VNum 5];
         OpReceive "some-other-node" "message2" [VNum 6]]).
Proof.
  assert (H : In (Apply 2 [VNum 6])
     (history [OpSubscribe "message2" 2; OpPublish [VStr "m"; VNum 1];
               OpReceive "my-node-id" "message2" [VNum 5];
               OpReceive "some-other-node" "message2" [VNum 6]]
              (test_store ∅)).1).
  { vm_compute. do 5 right. left. reflexivity. }
  split; [exact H|].
  exact (history_application_has_cause _ (test_store ∅) 2 [VNum 6] H).
Defined.

(** ** Construction, step by step *)

Lemma bind_throws {S A B} (m : M S A) (k : A → M S B) (s s' : S) t e :
  m s = Result t s' (Throw e) →
  bind m k s = Result t s' (Throw e).
Proof. intros Hm. unfold bind. by rewrite Hm. Qed.

Lemma nodeId_or_uuid_chosen (o : Options) (uuid : string) :
  nodeId_or_uuid (Some o) uuid () =
  Result (if supplies_nodeId o then [] else [Uuid]) ()
         (Normal (if supplies_nodeId o then default "" (opt_nodeId o) else uuid)).
Proof.
  unfold nodeId_or_uuid, supplies_nodeId.
  by destruct o as [? ? [[|a s]|] ? ? ?].
Qed.

(** [createServiceBusInterface] with exactly one source. *)
Lemma createServiceBusInterface_one_source (n : string) (o : Options) :
  supplies_connectionString o ≠ supplies_serviceBusService o →
  let co := {| co_nodeId := n; co_topic := topic o;
               co_subscription := subscription o;
               co_serviceBusService :=
                 if supplies_connectionString o
                 then ServiceFromConnectionString <$> connectionString o
                 else ServiceObject <$> serviceBusService o |} in
  createServiceBusInterface n (Some o) () =
  Result ((if supplies_connectionString o
           then [CreateServiceBusService (default "" (connectionString o))]
           else [])
            ++ [NewServiceBusInterface co;
                NewBatchInterface co {| sbi_options := co |}])
         ()
         (Normal {| bi_options := co; bi_inner := {| sbi_options := co |} |}).
Proof.
  unfold supplies_connectionString, supplies_serviceBusService.
  destruct o as [[[|a cs]|] [svc|] nid t s ls]; simpl; intros Hone;
    first [congruence | reflexivity].
Qed.

(** [createServiceBusInterface] with both sources or none. *)
Lemma createServiceBusInterface_rejects (n : string) (o : Options) :
  supplies_connectionString o = supplies_serviceBusService o →
  ∃ message, createServiceBusInterface n (Some o) () =
             Result [] () (Throw (Error message)).
Proof.
  unfold supplies_connectionString, supplies_serviceBusService.
  destruct o as [[[|a cs]|] [svc|] nid t s ls]; simpl; intros Hone;
    try discriminate Hone; eauto.
Qed.

(** The whole run of the constructor on options with exactly one source. *)
Lemma construct_one_source (o : Options) (uuid : string) :
  supplies_connectionString o ≠ supplies_serviceBusService o →
  let n := if supplies_nodeId o then default "" (opt_nodeId o) else uuid in
  let co := {| co_nodeId := n; co_topic := topic o;
               co_subscription := subscription o;
               co_serviceBusService :=
                 if supplies_connectionString o
                 then ServiceFromConnectionString <$> connectionString o
                 else ServiceObject <$> serviceBusService o |} in
  let that := {| nodeId := n;
                 sb := {| bi_options := co; bi_inner := {| sbi_options := co |} |};
                 subscribers := ∅ |} in
  construct (Some o) uuid =
  Result (StoreApply
            :: (if supplies_nodeId o then [] else [Uuid])
            ++ ((if supplies_connectionString o
                 then [CreateServiceBusService (default "" (connectionString o))]
                 else [])
                  ++ [NewServiceBusInterface co;
                      NewBatchInterface co {| sbi_options := co |}])
            ++ hook_calls that (listener_list (listeners o))
            ++ [SbOn "message"; SbStart])
         () (Normal that).
Proof.
  intros Hone n co that.
  apply (construct_after_transport (Some o) uuid _ _ _ _
           (nodeId_or_uuid_chosen o uuid)
           (createServiceBusInterface_one_source n o Hone)).
Qed.

Lemma construct_no_source_or_both (o : Options) (uuid : string) :
  supplies_connectionString o = supplies_serviceBusService o →
  ∃ message, outcome (construct (Some o) uuid) = Throw (Error message).
Proof.
  intros Hsame.
  destruct (createServiceBusInterface_rejects
              (if supplies_nodeId o then default "" (opt_nodeId o) else uuid)
              o Hsame) as [message Hthrow].
  exists message. unfold construct, new_ServiceBusStore.
  rewrite bind_call.
  rewrite (bind_normal _ _ _ _ _ _ (nodeId_or_uuid_chosen o uuid)).
  by rewrite (bind_throws _ _ _ _ _ _ Hthrow).
Qed.

(** X9. The constructor returns a store exactly when it is given options in
    which one of [connectionString] and [serviceBusService] is supplied and
    the other is not; with no options at all, with both or with neither it
    throws. *)
Theorem construct_returns_iff_one_source (options : option Options)
    (uuid : string) :
  (∃ that, outcome (construct options uuid) = Normal that) ↔
  (∃ o, options = Some o ∧
        supplies_connectionString o ≠ supplies_serviceBusService o).
Proof.
  split.
  - intros [that Hthat]. destruct options as [o|]; [|discriminate Hthat].
    exists o. split; [done|]. intros Hsame.
    destruct (construct_no_source_or_both o uuid Hsame) as [message Hthrow].
    congruence.
  - intros (o & -> & Hone). eexists.
    by rewrite (construct_one_source o uuid Hone).
Qed.

(** What comes out of a successful construction. *)
Lemma construct_normal_inv (o : Options) (uuid : string)
    (that : ServiceBusStore) :
  outcome (construct (Some o) uuid) = Normal that →
  supplies_connectionString o ≠ supplies_serviceBusService o ∧
  let n := if supplies_nodeId o then default "" (opt_nodeId o) else uuid in
  let co := {| co_nodeId := n; co_topic := topic o;
               co_subscription := subscription o;
               co_serviceBusService :=
                 if supplies_connectionString o
                 then ServiceFromConnectionString <$> connectionString o
                 else ServiceObject <$> serviceBusService o |} in
  that = {| nodeId := n;
            sb := {| bi_options := co; bi_inner := {| sbi_options := co |} |};
            subscribers := ∅ |}.
Proof.
  intros Hthat.
  assert (Hone : supplies_connectionString o ≠ supplies_serviceBusService o).
  { intros Hsame.
    destruct (construct_no_source_or_both o uuid Hsame) as [message Hthrow].
    congruence. }
  split; [exact Hone|].
  rewrite (construct_one_source o uuid Hone) in Hthat. simpl in Hthat.
  by injection Hthat as <-.
Qed.

Lemma filter_hook_calls (p : event → bool) (that : ServiceBusStore)
    (ls : list listener) :
  (∀ l, p (ListenerStore l that) = false) →
  (∀ l, p (ListenerSb l (sb that)) = false) →
  List.filter p (hook_calls that ls) = [].
Proof.
  intros Hstore Hsb. induction ls as [|l ls IH]; simpl.
  - reflexivity.
  - by rewrite Hstore, Hsb.
Qed.

(** X10. The node identity of a constructed store is [options.nodeId] when
    that is supplied, and [uuid()] is then not called; otherwise, an empty
    string included, it is the result of the one call of [uuid()]. *)
Theorem construct_nodeId (o : Options) (uuid : string)
    (that : ServiceBusStore) :
  outcome (construct (Some o) uuid) = Normal that →
  (if supplies_nodeId o
   then opt_nodeId o = Some (nodeId that)
   else nodeId that = uuid) ∧
  List.filter is_uuid_call (trace (construct (Some o) uuid)) =
    (if supplies_nodeId o then [] else [Uuid]).
Proof.
  intros Hthat.
  destruct (construct_normal_inv o uuid that Hthat) as [Hone ->].
  rewrite (construct_one_source o uuid Hone). cbn [trace nodeId].
  cbn [List.filter is_uuid_call].
  rewrite !List.filter_app, filter_hook_calls by done.
  unfold supplies_nodeId, supplies_connectionString.
  destruct o as [[[|a cs]|] svc [[|b n]|] t s ls]; simpl; done.
Qed.

Lemma construct_nodeId_witness :
  outcome (construct (Some (test_options (ListenerArray [7]))) "uuid-1")
    = Normal (test_store ∅) ∧
  (if supplies_nodeId (test_options (ListenerArray [7]))
   then opt_nodeId (test_options (ListenerArray [7]))
        = Some (nodeId (test_store ∅))
   else nodeId (test_store ∅) = "uuid-1") ∧
  List.filter is_uuid_call
    (trace (construct (Some (test_options (ListenerArray [7]))) "uuid-1")) =
    (if supplies_nodeId (test_options (ListenerArray [7])) then [] else [Uuid]).
Proof.
  split; [reflexivity|].
  apply (construct_nodeId (test_options (ListenerArray [7])) "uuid-1"
           (test_store ∅)).
  reflexivity.
Defined.

(** X11. The two transport objects of a constructed store are created once
    each, the inner [ServiceBusInterface] first, from one and the same
    [createOptions]: the store's node identity and the [topic] and
    [subscription] of the options as they are. *)
Theorem construct_transport_options (o : Options) (uuid : string)
    (that : ServiceBusStore) :
  outcome (construct (Some o) uuid) = Normal that →
  co_nodeId (bi_options (sb that)) = nodeId that ∧
  co_topic (bi_options (sb that)) = topic o ∧
  co_subscription (bi_options (sb that)) = subscription o ∧
  sbi_options (bi_inner (sb that)) = bi_options (sb that) ∧
  List.filter is_transport_creation (trace (construct (Some o) uuid)) =
    [NewServiceBusInterface (bi_options (sb that));
     NewBatchInterface (bi_options (sb that)) (bi_inner (sb that))].
Proof.
  intros Hthat.
  destruct (construct_normal_inv o uuid that Hthat) as [Hone ->].
  rewrite (construct_one_source o uuid Hone). cbn [trace nodeId sb].
  cbn [List.filter is_transport_creation].
  rewrite !List.filter_app, filter_hook_calls by done.
  repeat split.
  by destruct (supplies_nodeId o), (supplies_connectionString o).
Qed.

Lemma construct_transport_options_witness :
  outcome (construct (Some (test_options (ListenerArray [7]))) "uuid-1")
    = Normal (test_store ∅) ∧
  co_nodeId (bi_options (sb (test_store ∅))) = nodeId (test_store ∅) ∧
  co_topic (bi_options (sb (test_store ∅)))
    = topic (test_options (ListenerArray [7])) ∧
  co_subscription (bi_options (sb (test_store ∅)))
    = subscription (test_options (ListenerArray [7])) ∧
  sbi_options (bi_inner (sb (test_store ∅))) = bi_options (sb (test_store ∅)) ∧
  List.filter is_transport_creation
    (trace (construct (Some (test_options (ListenerArray [7]))) "uuid-1")) =
    [NewServiceBusInterface (bi_options (sb (test_store ∅)));
     NewBatchInterface (bi_options (sb (test_store ∅)))
                       (bi_inner (sb (test_store ∅)))].
Proof.
  split; [reflexivity|].
  apply (construct_transport_options (test_options (ListenerArray [7]))
           "uuid-1" (test_store ∅)).
  reflexivity.
Defined.

(** X12. The service of a constructed store: with a connection string
    supplied, [azure.createServiceBusService] is called once, with that
    string, and its result is the service; otherwise the service is the
    [serviceBusService] object of the options and [azure] is not called. *)
Theorem construct_service_source (o : Options) (uuid : string)
    (that : ServiceBusStore) :
  outcome (construct (Some o) uuid) = Normal that →
  if supplies_connectionString o
  then ∃ cs, connectionString o = Some cs ∧
             co_serviceBusService (bi_options (sb that))
               = Some (ServiceFromConnectionString cs) ∧
             List.filter is_azure_call (trace (construct (Some o) uuid))
               = [CreateServiceBusService cs]
  else ∃ id, serviceBusService o = Some id ∧
             co_serviceBusService (bi_options (sb that))
               = Some (ServiceObject id) ∧
             List.filter is_azure_call (trace (construct (Some o) uuid)) = [].
Proof.
  intros Hthat.
  destruct (construct_normal_inv o uuid that Hthat) as [Hone ->].
  rewrite (construct_one_source o uuid Hone). cbn [trace sb bi_options].
  cbn [List.filter is_azure_call].
  rewrite !List.filter_app, filter_hook_calls by done.
  revert Hone. unfold supplies_connectionString, supplies_serviceBusService.
  destruct o as [[[|a cs]|] [svc|] nid t s ls]; simpl; intros Hone;
    try congruence;
    (eexists; split; [reflexivity|]; split; [reflexivity|]);
    by destruct (supplies_nodeId _).
Qed.

Lemma construct_service_source_witness :
  outcome (construct (Some (test_options (ListenerArray [7]))) "uuid-1")
    = Normal (test_store ∅) ∧
  if supplies_connectionString (test_options (ListenerArray [7]))
  then ∃ cs, connectionString (test_options (ListenerArray [7])) = Some cs ∧
             co_serviceBusService (bi_options (sb (test_store ∅)))
               = Some (ServiceFromConnectionString cs) ∧
             List.filter is_azure_call
               (trace (construct (Some (test_options (ListenerArray [7]))) "uuid-1"))
               = [CreateServiceBusService cs]
  else ∃ id, serviceBusService (test_options (ListenerArray [7])) = Some id ∧
             co_serviceBusService (bi_options (sb (test_store ∅)))
               = Some (ServiceObject id) ∧
             List.filter is_azure_call
               (trace (construct (Some (test_options (ListenerArray [7]))) "uuid-1"))
               = [].
Proof.
  split; [reflexivity|].
  apply (construct_service_source (test_options (ListenerArray [7]))
           "uuid-1" (test_store ∅)).
  reflexivity.
Defined.

(** ** Construction, subscription and dispatch together *)

(** X13. A store as the constructor returns it has no subscriber: a message
    received then, from whatever node and under whatever name, gives the
    [received] event and no application, and leaves the store as it is.  The
    call returns, except for a message from another node under the name of a
    member of [Object.prototype], where it throws after the event. *)
Theorem constructed_store_applies_nobody (options : option Options)
    (uuid : string) (that : ServiceBusStore) (src name : string)
    (args : list value) :
  outcome (construct options uuid) = Normal that →
  run (receiveMessage src name args) that =
  Result [Emit "received" [VStr src; VStr name; VArr args]] that
         (if bool_decide (src ≠ nodeId that) && inherited name
          then Throw (TypeError "subscribers.forEach is not a function")
          else Normal ()).
Proof.
  intros Hthat. destruct options as [o|]; [|discriminate Hthat].
  destruct (construct_normal_inv o uuid that Hthat) as [_ ->].
  rewrite receiveMessage_run.
  cbn [operation_calls subscribers]. unfold finds_array.
  rewrite lookup_empty, negb_involutive. simpl.
  by case_bool_decide.
Qed.

Lemma constructed_store_applies_nobody_witness :
  outcome (construct (Some (test_options (ListenerArray [7]))) "uuid-1")
    = Normal (test_store ∅) ∧
  run (receiveMessage "some-other-node" "message2" [VNum 6]) (test_store ∅) =
  Result [Emit "received" [VStr "some-other-node"; VStr "message2";
                           VArr [VNum 6]]]
         (test_store ∅)
         (if bool_decide ("some-other-node" ≠ nodeId (test_store ∅))
               && inherited "message2"
          then Throw (TypeError "subscribers.forEach is not a function")
          else Normal ()).
Proof.
  split; [reflexivity|].
  apply (constructed_store_applies_nobody
           (Some (test_options (ListenerArray [7]))) "uuid-1").
  reflexivity.
Defined.

(** X14. For a name whose lookup gives an array, that is a name with an
    entry or a name that is not the name of a member of [Object.prototype]:
    a consumer that has just been subscribed under the name is the last one
    applied when a message under that name comes from another node; the
    consumers of the entry as it was are applied first, in their order. *)
Theorem subscribe_then_receive_applies_last (st : ServiceBusStore)
    (src name : string) (c : consumer) (args : list value) :
  src ≠ nodeId st →
  finds_array (subscribers st) name = true →
  trace (run (subscribe name c ;; receiveMessage src name args) st) =
  Emit "subscribe" [VStr name; VFun c]
    :: Emit "received" [VStr src; VStr name; VArr args]
    :: map (λ sub, Apply sub args) (default [] (subscribers st !! name))
    ++ [Apply c args].
Proof.
  intros Hsrc Hname.
  pose proof (receiveMessage_other_node
                (set_subscribers
                   (<[name := default [] (subscribers st !! name) ++ [c]]>
                      (subscribers st)) st)
                src name args Hsrc) as Hrecv.
  unfold run in *.
  rewrite (bind_normal _ _ _ _ _ _ (subscribe_run st name c Hname)).
  cbn [trace]. rewrite Hrecv.
  cbn [trace set_subscribers subscribers].
  rewrite lookup_insert_eq. simpl. by rewrite map_app.
Qed.

Lemma subscribe_then_receive_applies_last_witness :
  "some-other-node" ≠ nodeId (test_store {[ "message2" := [2] ]}) ∧
  finds_array (subscribers (test_store {[ "message2" := [2] ]})) "message2"
    = true ∧
  trace (run (subscribe "message2" 20 ;;
              receiveMessage "some-other-node" "message2" [VNum 6])
             (test_store {[ "message2" := [2] ]})) =
  Emit "subscribe" [VStr "message2"; VFun 20]
    :: Emit "received" [VStr "some-other-node"; VStr "message2"; VArr [VNum 6]]
    :: map (λ sub, Apply sub [VNum 6])
         (default [] (subscribers (test_store {[ "message2" := [2] ]})
                        !! "message2"))
    ++ [Apply 20 [VNum 6]].
Proof.
  split; [discriminate|]. split; [reflexivity|].
  apply (subscribe_then_receive_applies_last
           (test_store {[ "message2" := [2] ]}) "some-other-node" "message2"
           20 [VNum 6]).
  - discriminate.
  - reflexivity.
Defined.

(** X15. What a message under a name is dispatched to depends on the
    subscriptions and [unsubscribe] calls under that name only: after any
    history with no such call under the name, a message under it makes the
    same calls as before the history. *)
Theorem history_elsewhere_keeps_dispatch (ops : list operation)
    (st : ServiceBusStore) (src name : string) (args : list value) :
  forallb (λ op, negb (registry_operation_on name op)) ops = true →
  trace (run (receiveMessage src name args) (history ops st).2) =
  trace (run (receiveMessage src name args) st).
Proof.
  intros Hops. rewrite !receiveMessage_run. cbn [trace operation_calls].
  destruct (history_identity ops st) as [-> _].
  by rewrite history_elsewhere.
Qed.

Lemma history_elsewhere_keeps_dispatch_witness :
  forallb (λ op, negb (registry_operation_on "message2" op))
    [OpSubscribe "message1" 1; OpUnsubscribe "message3" 3;
     OpPublish [VStr "m"]; OpDestroy] = true ∧
  trace (run (receiveMessage "some-other-node" "message2" [VNum 6])
           (history [OpSubscribe "message1" 1; OpUnsubscribe "message3" 3;
                     OpPublish [VStr "m"]; OpDestroy]
                    (test_store {[ "message2" := [2; 20] ]})).2) =
  trace (run (receiveMessage "some-other-node" "message2" [VNum 6])
           (test_store {[ "message2" := [2; 20] ]})).
Proof.
  split; [reflexivity|].
  apply (history_elsewhere_keeps_dispatch
           [OpSubscribe "message1" 1; OpUnsubscribe "message3" 3;
            OpPublish [VStr "m"]; OpDestroy]
           (test_store {[ "message2" := [2; 20] ]})
           "some-other-node" "message2" [VNum 6]).
  reflexivity.
Defined.
